(** * Bedtime-story pipeline: a shallow embedding of [main.py]

    The development follows the source file top-down: the fixed
    catalogues, the keyword mood classifier ([detect_mood]), the random
    context selection ([select_themes], [select_setting]), the tolerant
    JSON reader ([parse_json_safe]) and the generate / judge / rewrite loop
    of [generate_and_refine_story].

    Modelling conventions.
    - Python [str] is [string]; [str.lower] is modelled on ASCII letters.
    - Python exceptions are the [Raise] branch of [result].
    - The chat-completion service, the random generator and [json.loads]
      are library code: they are Section variables, so every theorem holds
      for all of their behaviours.  A small reference decoder
      ([json_decode]) instantiates [json.loads] on concrete inputs.
    - JSON numbers are exact rationals ([Q]); Python sums integer scores
      exactly, and binary64 rounding of fractional scores is not modelled.
    - Debug [print] calls have no effect on the returned values and are
      left out. *)

From Stdlib Require Import String Ascii List Bool Arith Lia ZArith QArith
  Permutation.
Import ListNotations.

Local Open Scope string_scope.
Local Open Scope list_scope.
Local Open Scope nat_scope.

(** ** Exceptions and results *)

Inductive exn : Type :=
| TypeError
| AttributeError
| ValueError
| IndexError
| UnboundLocalError
| RuntimeError
| JSONDecodeError
| APIError (msg : string).

Inductive result (A : Type) : Type :=
| Ok (a : A)
| Raise (e : exn).
Arguments Ok {A} a.
Arguments Raise {A} e.

(** [try: ... except Exception: ...] *)
Definition try_except {A} (body : result A) (handler : exn -> result A)
  : result A :=
  match body with
  | Ok a => Ok a
  | Raise e => handler e
  end.

(** ** Strings *)

Module Str.

(** [s.startswith(p)] *)
Fixpoint starts_with (p s : string) : bool :=
  match p, s with
  | EmptyString, _ => true
  | String a p', String b s' => Ascii.eqb a b && starts_with p' s'
  | String _ _, EmptyString => false
  end.

(** [p in s] for two Python strings: substring test. *)
Fixpoint contains (p s : string) : bool :=
  starts_with p s ||
  match s with
  | EmptyString => false
  | String _ s' => contains p s'
  end.

Definition lower_ascii (c : ascii) : ascii :=
  let n := nat_of_ascii c in
  if (65 <=? n) && (n <=? 90) then ascii_of_nat (n + 32) else c.

(** [s.lower()] *)
Fixpoint lower (s : string) : string :=
  match s with
  | EmptyString => EmptyString
  | String c s' => String (lower_ascii c) (lower s')
  end.

(** The mathematical notion the boolean test decides. *)
Definition substring_of (p s : string) : Prop :=
  exists pre post, s = (pre ++ p ++ post)%string.

End Str.

(** ** Catalogues (module-level constants of [main.py]) *)



Definition SETTINGS : list string :=
  [ "Farm"; "Ocean"; "Jungle"; "Forest"; "Neighborhood"; "Backyard"; "Park";
    "Mountain"; "Beach"; "School"; "Space"; "Castle"; "Under the Bed";
    "Treehouse"; "Desert"; "Arctic"; "Magical Land"; "Playground"; "Circus";
    "Library" ].

(** A Python [dict] literal keeps insertion order: an association list. *)
Definition MOOD_KEYWORDS : list (string * list string) :=
  [ ("calm",    ["calm"; "sleepy"; "tired"; "cozy"; "bedtime"; "relaxed"]);
    ("anxious", ["scared"; "lost"; "anxious"; "afraid"; "worried"; "nervous"]);
    ("excited", ["excited"; "adventure"; "energetic"; "happy"; "bouncy"]);
    ("sad",     ["sad"; "down"; "lonely"; "miss"; "cry"]);
    ("curious", ["curious"; "wonder"; "ask"; "how"; "why"; "what"]);
    ("playful", ["fun"; "silly"; "joke"; "play"]) ].

(** The literal list iterated by the direct-mention check of [detect_mood]. *)
Definition MOOD_LABELS : list string :=
  ["calm"; "anxious"; "excited"; "sad"; "curious"; "playful"].

(** ** Mood classifier *)

Module Mood.

(** [scores[mood] += 1] on an insertion-ordered dict. *)
Fixpoint bump (mood : string) (scores : list (string * nat))
  : list (string * nat) :=
  match scores with
  | [] => []
  | (k, v) :: rest =>
      if String.eqb k mood then (k, S v) :: rest
      else (k, v) :: bump mood rest
  end.

(** The inner [for kw in keys] loop. *)
Definition score_keys (lower mood : string) (keys : list string)
    (scores : list (string * nat)) : list (string * nat) :=
  fold_left
    (fun sc kw => if Str.contains kw lower then bump mood sc else sc)
    keys scores.

(** The outer [for mood, keys in MOOD_KEYWORDS.items()] loop, started from
    [{k: 0 for k in MOOD_KEYWORDS.keys()}]. *)
Definition keyword_scores (lower : string) : list (string * nat) :=
  fold_left
    (fun sc mk => score_keys lower (fst mk) (snd mk) sc)
    MOOD_KEYWORDS
    (map (fun mk => (fst mk, 0)) MOOD_KEYWORDS).

(** [max(items, key=lambda x: x[1])]: the first item of maximal value. *)
Fixpoint max_item (best : string * nat) (items : list (string * nat))
  : string * nat :=
  match items with
  | [] => best
  | it :: rest =>
      if snd best <? snd it then max_item it rest else max_item best rest
  end.

(** The direct-mention loop: the first label that occurs in the text. *)
Definition direct_mention (lower : string) : option string :=
  find (fun mood => Str.contains mood lower) MOOD_LABELS.


Definition detect_mood (user_text : string) : string :=
  let lower := Str.lower user_text in
  let scores := keyword_scores lower in
  match direct_mention lower with
  | Some mood => mood
  | None =>
      match scores with
      | [] => "calm" (* unreachable: the dict has six keys *)
      | first :: rest =>
          let best := max_item first rest in
          if snd best =? 0 then "calm" else fst best
      end
  end.

End Mood.


(** ** JSON values as Python sees them *)

#[local] Set Warnings "-register-all".


Inductive json : Type :=
| JNull
| JBool (b : bool)
| JNum (q : Q)
| JStr (s : string)
| JArr (items : list json)
| JObj (members : list (string * json)).

Module Py.

(** [bool(v)] *)
Definition truthy (v : json) : bool :=
  match v with
  | JNull => false
  | JBool b => b
  | JNum q => negb (Qeq_bool q 0)
  | JStr s => negb (String.eqb s EmptyString)
  | JArr items => match items with [] => false | _ => true end
  | JObj members => match members with [] => false | _ => true end
  end.

Fixpoint lookup (key : string) (members : list (string * json))
  : option json :=
  match members with
  | [] => None
  | (k, v) :: rest => if String.eqb k key then Some v else lookup key rest
  end.

(** [d[key] = v]: overwrite in place or append. *)
Fixpoint dict_set (key : string) (v : json) (members : list (string * json))
  : list (string * json) :=
  match members with
  | [] => [(key, v)]
  | (k, v0) :: rest =>
      if String.eqb k key then (k, v) :: rest
      else (k, v0) :: dict_set key v rest
  end.

Definition is_str (key : string) (v : json) : bool :=
  match v with
  | JStr s => String.eqb s key
  | _ => false
  end.

(** [key in v] for a string [key]: key membership on a dict, element
    membership on a list, substring test on a string, [TypeError] on the
    scalars. *)
Definition contains (key : string) (v : json) : result bool :=
  match v with
  | JObj members =>
      Ok (match lookup key members with Some _ => true | None => false end)
  | JArr items => Ok (existsb (is_str key) items)
  | JStr s => Ok (Str.contains key s)
  | JNull | JBool _ | JNum _ => Raise TypeError
  end.

(** [v.get(key, default)]: only dicts have [get]. *)
Definition get (v : json) (key : string) (default : json) : result json :=
  match v with
  | JObj members =>
      Ok (match lookup key members with Some x => x | None => default end)
  | _ => Raise AttributeError
  end.

(** [v.values()] *)
Definition values (v : json) : result (list json) :=
  match v with
  | JObj members => Ok (map snd members)
  | _ => Raise AttributeError
  end.

(** [len(v)] *)
Definition len (v : json) : result nat :=
  match v with
  | JObj members => Ok (length members)
  | JArr items => Ok (length items)
  | JStr s => Ok (String.length s)
  | JNull | JBool _ | JNum _ => Raise TypeError
  end.

(** [acc + v] for a number [acc]: booleans count as 0 and 1. *)
Definition add (acc : Q) (v : json) : result Q :=
  match v with
  | JNum q => Ok (acc + q)%Q
  | JBool b => Ok (acc + (if b then 1 else 0))%Q
  | _ => Raise TypeError
  end.

(** [sum(vs)], started from 0 and folded left to right. *)
Fixpoint sum_from (acc : Q) (vs : list json) : result Q :=
  match vs with
  | [] => Ok acc
  | v :: rest =>
      match add acc v with
      | Ok acc' => sum_from acc' rest
      | Raise e => Raise e
      end
  end.

Definition sum (vs : list json) : result Q := sum_from 0%Q vs.

Fixpoint chars (s : string) : list json :=
  match s with
  | EmptyString => []
  | String c s' => JStr (String c EmptyString) :: chars s'
  end.

(** The items obtained by iterating [v[:n]]: a list gives its first [n]
    elements, a string its first [n] characters; nothing else can be
    sliced (the exception raised on a dict depends on the Python version
    and is rendered as [TypeError]). *)
Definition slice_items (n : nat) (v : json) : result (list json) :=
  match v with
  | JArr items => Ok (firstn n items)
  | JStr s => Ok (firstn n (chars s))
  | _ => Raise TypeError
  end.

End Py.

(** ** A reference JSON decoder

    [json.loads] itself is a parameter of the pipeline.  This decoder covers
    the fragment of JSON used in the worked examples (whitespace, the three
    literals, decimal numbers without exponent, strings with the simple
    escapes, arrays, objects) and rejects everything else. *)

Module JsonDecode.

Definition is_ws (c : ascii) : bool :=
  let n := nat_of_ascii c in
  (n =? 32) || (n =? 9) || (n =? 10) || (n =? 13).

Definition is_digit (c : ascii) : bool :=
  let n := nat_of_ascii c in (48 <=? n) && (n <=? 57).

Fixpoint skip_ws (s : string) : string :=
  match s with
  | String c s' => if is_ws c then skip_ws s' else s
  | EmptyString => s
  end.

(** Leading digits of [s], most significant first, and the rest. *)
Fixpoint take_digits (s : string) : list nat * string :=
  match s with
  | String c s' =>
      if is_digit c then
        let (ds, r) := take_digits s' in (nat_of_ascii c - 48 :: ds, r)
      else ([], s)
  | EmptyString => ([], s)
  end.

Definition digits_value (ds : list nat) : Z :=
  fold_left (fun acc d => (10 * acc + Z.of_nat d)%Z) ds 0%Z.

Definition decode_unsigned (s : string) : option (Q * string) :=
  match take_digits s with
  | ([], _) => None
  | (ip, String "."%char r) =>
      match take_digits r with
      | ([], _) => None
      | (fp, r') =>
          let scale := Z.pow 10 (Z.of_nat (length fp)) in
          Some (Qmake (digits_value ip * scale + digits_value fp)
                      (Z.to_pos scale), r')
      end
  | (ip, r) => Some (inject_Z (digits_value ip), r)
  end.

Definition decode_number (s : string) : option (Q * string) :=
  match s with
  | String "-"%char r =>
      match decode_unsigned r with
      | Some (q, r') => Some (Qopp q, r')
      | None => None
      end
  | _ => decode_unsigned s
  end.

(** The double-quote character, code 34. *)
Definition dquote : ascii := ascii_of_nat 34.

Definition unescape (c : ascii) : option ascii :=
  if Ascii.eqb c dquote then Some dquote
  else match c with
       | "\"%char => Some "\"%char
       | "/"%char => Some "/"%char
       | "n"%char => Some (ascii_of_nat 10)
       | "t"%char => Some (ascii_of_nat 9)
       | "r"%char => Some (ascii_of_nat 13)
       | _ => None
       end.

(** The body of a string literal, after its opening quote. *)
Fixpoint decode_string_body (s : string) : option (string * string) :=
  match s with
  | EmptyString => None
  | String "\"%char (String c r) =>
      match unescape c, decode_string_body r with
      | Some c', Some (body, r') => Some (String c' body, r')
      | _, _ => None
      end
  | String c r =>
      if Ascii.eqb c dquote then Some (EmptyString, r)
      else if nat_of_ascii c <? 32 then None
      else match decode_string_body r with
           | Some (body, r') => Some (String c body, r')
           | None => None
           end
  end.

Fixpoint decode_value (fuel : nat) (s : string) : option (json * string) :=
  match fuel with
  | O => None
  | S fuel' =>
      match skip_ws s with
      | String "n"%char (String "u"%char (String "l"%char
          (String "l"%char r))) => Some (JNull, r)
      | String "t"%char (String "r"%char (String "u"%char
          (String "e"%char r))) => Some (JBool true, r)
      | String "f"%char (String "a"%char (String "l"%char
          (String "s"%char (String "e"%char r)))) => Some (JBool false, r)
      | String "["%char r =>
          match skip_ws r with
          | String "]"%char r' => Some (JArr [], r')
          | _ => decode_items fuel' r []
          end
      | String "{"%char r =>
          match skip_ws r with
          | String "}"%char r' => Some (JObj [], r')
          | _ => decode_members fuel' r []
          end
      | String c r =>
          if Ascii.eqb c dquote then
            match decode_string_body r with
            | Some (body, r') => Some (JStr body, r')
            | None => None
            end
          else
            match decode_number (String c r) with
            | Some (q, r') => Some (JNum q, r')
            | None => None
            end
      | EmptyString => None
      end
  end

with decode_items (fuel : nat) (s : string) (acc : list json)
  : option (json * string) :=
  match fuel with
  | O => None
  | S fuel' =>
      match decode_value fuel' s with
      | Some (v, r) =>
          match skip_ws r with
          | String ","%char r' => decode_items fuel' r' (acc ++ [v])
          | String "]"%char r' => Some (JArr (acc ++ [v]), r')
          | _ => None
          end
      | None => None
      end
  end

with decode_members (fuel : nat) (s : string) (acc : list (string * json))
  : option (json * string) :=
  match fuel with
  | O => None
  | S fuel' =>
      match skip_ws s with
      | String c r =>
          if Ascii.eqb c dquote then
            match decode_string_body r with
            | Some (key, r1) =>
                match skip_ws r1 with
                | String ":"%char r2 =>
                    match decode_value fuel' r2 with
                    | Some (v, r3) =>
                        match skip_ws r3 with
                        | String ","%char r4 =>
                            decode_members fuel' r4 (Py.dict_set key v acc)
                        | String "}"%char r4 =>
                            Some (JObj (Py.dict_set key v acc), r4)
                        | _ => None
                        end
                    | None => None
                    end
                | _ => None
                end
            | None => None
            end
          else None
      | EmptyString => None
      end
  end.

(** [quoted s] is [s] between double quotes, for writing JSON texts. *)
Definition quoted (s : string) : string :=
  (String dquote s ++ String dquote EmptyString)%string.

(** The whole text must be one JSON value, surrounded by whitespace only. *)
Definition json_decode (text : string) : result json :=
  match decode_value (2 * String.length text + 2) text with
  | Some (v, r) =>
      match skip_ws r with
      | EmptyString => Ok v
      | _ => Raise JSONDecodeError
      end
  | None => Raise JSONDecodeError
  end.

End JsonDecode.


(** ** [re.search(r"\{.*\}", text, re.DOTALL)]

    With DOTALL the dot matches every character, so the leftmost match
    starts at the first opening brace and the greedy star carries it to the
    last closing brace behind it; there is no match when no closing brace
    follows the first opening one. *)

Module Re.

(** The suffix of [s] behind its first opening brace. *)
Fixpoint after_first_open (s : string) : option string :=
  match s with
  | EmptyString => None
  | String c s' =>
      if Ascii.eqb c "{"%char then Some s' else after_first_open s'
  end.

(** The longest prefix of [s] that ends with a closing brace. *)
Fixpoint upto_last_close (s : string) : option string :=
  match s with
  | EmptyString => None
  | String c s' =>
      match upto_last_close s' with
      | Some p => Some (String c p)
      | None =>
          if Ascii.eqb c "}"%char then Some (String c EmptyString) else None
      end
  end.

(** [m.group(0)] of the search, [None] when there is no match. *)
Definition search_braces (text : string) : option string :=
  match after_first_open text with
  | Some rest =>
      match upto_last_close rest with
      | Some body => Some (String "{"%char body)
      | None => None
      end
  | None => None
  end.

End Re.

(** ** Prompts

    Every prompt is a fixed template around a few fields; the model keeps
    the template's name and its fields. *)

Inductive prompt : Type :=
| StoryPrompt (user_request mood : string) (themes : list string)
              (setting : string)
| JudgePrompt (story_text : string)
| RewritePrompt (revisions : list json) (story : string)
| CardsPrompt (story_text : string)
| SoundtrackPrompt (mood setting : string).


Definition build_judge_prompt (story_text : string) : prompt :=
  JudgePrompt story_text.



(** One invocation of [call_model]. *)
Record call : Type := Call {
  call_prompt : prompt;
  call_max_tokens : nat;
  call_temperature : Q
}.


Definition judge_call (story : string) : call :=
  Call (build_judge_prompt story) 500 (3 # 10).

Definition rewrite_call (revisions : list json) (story : string) : call :=
  Call (RewritePrompt revisions story) 700 (55 # 100).





Definition is_derivation_call (c : call) : bool :=
  match call_prompt c with
  | CardsPrompt _ | SoundtrackPrompt _ _ => true
  | _ => false
  end.

(** ** The effects of one request

    The state records the invocations of [call_model] made so far, oldest
    first, and the number of random draws consumed. *)

Record state : Type := State {
  calls : list call;
  draws : nat
}.


Definition M (A : Type) : Type := state -> result A * state.

Definition ret {A} (a : A) : M A := fun s => (Ok a, s).

Definition raise {A} (e : exn) : M A := fun s => (Raise e, s).

Definition bind {A B} (m : M A) (k : A -> M B) : M B :=
  fun s =>
    match m s with
    | (Ok a, s') => k a s'
    | (Raise e, s') => (Raise e, s')
    end.

Definition lift {A} (r : result A) : M A := fun s => (r, s).

Declare Scope pipeline_scope.
Delimit Scope pipeline_scope with pipeline.
Notation "x <- m ;; k" := (bind m (fun x => k))
  (at level 61, m at next level, right associativity) : pipeline_scope.
Local Open Scope pipeline_scope.

(** The verdict substituted when the judge's answer has no [scores]. *)
Definition FALLBACK_SCORES : list (string * json) :=
  [ ("AgeAppropriateness", JNum 8);
    ("ToneCalmness", JNum 7);
    ("ImageryQuality", JNum 7);
    ("SentenceSimplicity", JNum 7);
    ("EmotionalClarity", JNum 7);
    ("ProblemSolvingPresence", JNum 8);
    ("StructureCompleteness", JNum 7);
    ("SleepinessFactor", JNum 7) ].

Definition FALLBACK_REVISIONS : list json :=
  [ JStr "Ensure the problem solving steps are explicit.";
    JStr "Make ending more calming." ].

Definition FALLBACK_JUDGEMENT : json :=
  JObj [ ("scores", JObj FALLBACK_SCORES);
         ("critique",
          JStr "Judge failed to return JSON; using fallback scores.");
         ("revisions", JArr FALLBACK_REVISIONS) ].

(** [sum(scores.values()) / len(scores) if scores else 0] *)
Definition avg_score (scores : json) : result Q :=
  if Py.truthy scores then
    match Py.values scores with
    | Raise e => Raise e
    | Ok vs =>
        match Py.sum vs with
        | Raise e => Raise e
        | Ok total =>
            match Py.len scores with
            | Raise e => Raise e
            | Ok n => Ok (total / inject_Z (Z.of_nat n))%Q
            end
        end
    end
  else Ok 0%Q.

(** [avg_score >= 7.5 or attempt == 2] *)
Definition accepts (avg : Q) (attempt : nat) : bool :=
  Qle_bool (15 # 2) avg || (attempt =? 2).

(** The acceptance lines of the loop body as one function of the verdict
    and the round index:
    [scores = judge_json.get("scores", {})], the average, the test. *)
Definition acceptance (judge_json : json) (attempt : nat) : result bool :=
  match Py.get judge_json "scores" (JObj []) with
  | Raise e => Raise e
  | Ok scores =>
      match avg_score scores with
      | Raise e => Raise e
      | Ok avg => Ok (accepts avg attempt)
      end
  end.



Section Pipeline.

(** [json.loads] *)
Variable json_loads : string -> result json.
(** [openai.api_key], read from the environment at import time. *)
Variable api_key : option string.
(** The chat-completion service: its answer, or its failure, to the
    [i]-th invocation. *)
Variable llm : nat -> call -> result string.
(** The random generator: the raw value of the [i]-th draw. *)
Variable rng : nat -> nat.

Definition error_object (kind text : string) : json :=
  JObj [("error", JStr kind); ("raw", JStr text)].

Definition parse_json_safe (text : string) : result json :=
  try_except (json_loads text) (fun _ =>
    match Re.search_braces text with
    | Some candidate =>
        try_except (json_loads candidate)
                   (fun _ => Ok (error_object "invalid_json" text))
    | None => Ok (error_object "no_json" text)
    end).

(** [not openai.api_key] *)
Definition key_missing : bool :=
  match api_key with
  | None => true
  | Some k => String.eqb k EmptyString
  end.

(** What the [i]-th invocation of [call_model] evaluates to. *)
Definition model_reply (i : nat) (c : call) : result string :=
  if key_missing then Raise RuntimeError else llm i c.

Definition call_model (p : prompt) (max_tokens : nat) (temperature : Q)
  : M string :=
  fun s =>
    let c := Call p max_tokens temperature in
    (model_reply (length (calls s)) c, State (calls s ++ [c]) (draws s)).

(** A uniform draw from [0, n). *)
Definition randbelow (n : nat) : M nat :=
  fun s => (Ok (rng (draws s) mod n), State (calls s) (S (draws s))).








(** [random.choice(seq)] *)
Definition random_choice (seq : list string) : M string :=
  match seq with
  | [] => raise IndexError
  | _ => j <- randbelow (length seq) ;; ret (nth j seq EmptyString)
  end.




Definition select_setting : M string := random_choice SETTINGS.

(** The judging lines of the loop body: parse the judge's answer and
    substitute the fallback verdict when ["scores" not in judge_json]. *)
Definition judge_verdict (judge_raw : string) : result json :=
  match parse_json_safe judge_raw with
  | Raise e => Raise e
  | Ok judge_json =>
      match Py.contains "scores" judge_json with
      | Raise e => Raise e
      | Ok true => Ok judge_json
      | Ok false => Ok FALLBACK_JUDGEMENT
      end
  end.

(** [judge_json.get("revisions", [])[:5]], as the items the rewrite prompt
    iterates over. *)
Definition revisions_of (judge_json : json) : result (list json) :=
  match Py.get judge_json "revisions" (JArr []) with
  | Raise e => Raise e
  | Ok listed => Py.slice_items 5 listed
  end.

(** One iteration of [for attempt in range(3)]: the flag says whether the
    iteration left through [break]; the other components are the values of
    [story] and [judge_json] when it ends. *)
Definition judge_round (attempt : nat) (story : string)
  : M (bool * string * json) :=
  judge_raw <- call_model (build_judge_prompt story) 500 (3 # 10) ;;
  judge_json <- lift (judge_verdict judge_raw) ;;
  accept <- lift (acceptance judge_json attempt) ;;
  if accept then ret (true, story, judge_json)
  else
    revisions <- lift (revisions_of judge_json) ;;
    rewritten <- call_model (RewritePrompt revisions story) 700 (55 # 100) ;;
    ret (false, rewritten, judge_json).


(** [try: json.loads(raw) except Exception: parse_json_safe(raw)] *)
Definition derive_json (raw : string) : result json :=
  try_except (json_loads raw) (fun _ => parse_json_safe raw).




End Pipeline.

(** ** Observations on a run *)













(** The specification's example for the tolerant reader, and the object
    embedded in it. *)
Definition embedded_object : string :=
  Eval cbv in ("{" ++ JsonDecode.quoted "a" ++ ":1}")%string.

Definition example_answer : string :=
  Eval cbv in ("Here is the result: " ++ embedded_object ++ " Thanks!")%string.

(** Whether the character [c] occurs in [s]. *)
Fixpoint has_char (c : ascii) (s : string) : bool :=
  match s with
  | EmptyString => false
  | String d s' => Ascii.eqb d c || has_char c s'
  end.

(** ** Worked scenarios

    Concrete services for the examples: the reference decoder stands for
    [json.loads], the key is set, every draw is 0, and the chat service
    answers by the kind of prompt. *)

Module Scenario.
Import JsonDecode.






Definition key : option string := Some "sk-test".










End Scenario.

(** ** Further observations

    Notions used to state what the code does beyond the acceptance rule. *)

(** How many of [keys] occur in the lower-cased text. *)
Definition present (lower : string) (keys : list string) : nat :=
  length (filter (fun kw => Str.contains kw lower) keys).


(** The kind of prompt a call carries. *)
Inductive kind : Type := KStory | KJudge | KRewrite | KCards | KSoundtrack.

Definition kind_of (c : call) : kind :=
  match call_prompt c with
  | StoryPrompt _ _ _ _ => KStory
  | JudgePrompt _ => KJudge
  | RewritePrompt _ _ => KRewrite
  | CardsPrompt _ => KCards
  | SoundtrackPrompt _ _ => KSoundtrack
  end.


(** ** The command line ([main])

    [input()] delivers the typed line; the printed report is kept as the
    values it prints. *)

Module Cli.








Section Main.

Variable json_loads : string -> result json.
Variable api_key : option string.
Variable llm : nat -> call -> result string.
Variable rng : nat -> nat.


End Main.

End Cli.

(** ** The flow of stories through the judge loop

    [chained n story l]: the calls [l], made from position [n] of the log
    on, evaluate [story]; each rewrite is asked for the story just
    evaluated with the revisions of its verdict, and the next evaluation
    is that of the text the rewrite returned. *)

Inductive chained (json_loads : string -> result json)
    (api_key : option string) (llm : nat -> call -> result string)
  : nat -> string -> list call -> Prop :=
| chained_judge n story :
    chained json_loads api_key llm n story [judge_call story]
| chained_failed n story raw v revs e :
    model_reply api_key llm n (judge_call story) = Ok raw ->
    judge_verdict json_loads raw = Ok v ->
    revisions_of v = Ok revs ->
    model_reply api_key llm (S n) (rewrite_call revs story) = Raise e ->
    chained json_loads api_key llm n story
      [judge_call story; rewrite_call revs story]
| chained_next n story raw v revs rewritten rest :
    model_reply api_key llm n (judge_call story) = Ok raw ->
    judge_verdict json_loads raw = Ok v ->
    revisions_of v = Ok revs ->
    model_reply api_key llm (S n) (rewrite_call revs story) = Ok rewritten ->
    chained json_loads api_key llm (S (S n)) rewritten rest ->
    chained json_loads api_key llm n story
      (judge_call story :: rewrite_call revs story :: rest).

(** ** Further scenarios *)

Module ScenarioMore.
Import JsonDecode Scenario.






End ScenarioMore.

(** * Proofs *)

(** ** Substring test *)

Module StrFacts.
Import Str.

Lemma starts_with_spec p s :
  starts_with p s = true <-> exists post, s = (p ++ post)%string.
Proof.
  revert s; induction p as [|a p IH]; intros s; simpl.
  - split; [intros _; now exists s | reflexivity].
  - destruct s as [|b s].
    + split; [discriminate | intros [post H]; discriminate].
    + rewrite andb_true_iff, Ascii.eqb_eq, IH. split.
      * intros [-> [post ->]]. now exists post.
      * intros [post H]. injection H as -> ->. split; [reflexivity|].
        now exists post.
Qed.

Lemma contains_spec p s : contains p s = true <-> substring_of p s.
Proof.
  unfold substring_of. induction s as [|b s IH].
  - simpl. rewrite orb_false_r, starts_with_spec. split.
    + intros [post H]. now exists EmptyString, post.
    + intros [pre [post H]]. destruct pre; simpl in H.
      * now exists post.
      * discriminate.
  - cbn [contains]. rewrite orb_true_iff, starts_with_spec, IH. split.
    + intros [[post H] | [pre [post H]]].
      * now exists EmptyString, post.
      * exists (String b pre), post. simpl. now rewrite H.
    + intros [pre [post H]]. destruct pre as [|c pre]; simpl in H.
      * left. now exists post.
      * right. injection H as _ H. now exists pre, post.
Qed.

Lemma contains_false p s : contains p s = false <-> ~ substring_of p s.
Proof.
  rewrite <- contains_spec. destruct (contains p s); split; intro H;
    try reflexivity; try discriminate; now contradiction H.
Qed.

End StrFacts.

(** ** Mood classifier *)

Module MoodFacts.
Import Str StrFacts Mood.

Lemma find_first {A} (f : A -> bool) pre x post :
  (forall y, In y pre -> f y = false) -> f x = true ->
  find f (pre ++ x :: post) = Some x.
Proof.
  intros Hpre Hx. induction pre as [|y pre IH]; simpl.
  - now rewrite Hx.
  - rewrite (Hpre y) by now left. apply IH. intros z Hz. apply Hpre. now right.
Qed.

Lemma direct_mention_first lower mood pre post :
  MOOD_LABELS = pre ++ mood :: post ->
  substring_of mood lower ->
  (forall m, In m pre -> ~ substring_of m lower) ->
  direct_mention lower = Some mood.
Proof.
  intros Hsplit Hin Hpre. unfold direct_mention. rewrite Hsplit.
  apply find_first.
  - intros y Hy. apply contains_false. now apply Hpre.
  - now apply contains_spec.
Qed.

Lemma detect_mood_of_direct text mood :
  direct_mention (lower text) = Some mood -> detect_mood text = mood.
Proof. unfold detect_mood. now intros ->. Qed.






(** C7.  Direct-mention override: the labels are tried in the order calm,
    anxious, excited, sad, curious, playful and the first one that occurs in
    the lower-cased text is returned; hence a text whose lower-cased form
    contains exactly one label is classified as that label, whatever the
    keyword scores are. *)
Theorem detect_mood_direct_mention :
  MOOD_LABELS = ["calm"; "anxious"; "excited"; "sad"; "curious"; "playful"]
  /\ (forall text mood pre post,
         MOOD_LABELS = pre ++ mood :: post ->
         substring_of mood (lower text) ->
         (forall m, In m pre -> ~ substring_of m (lower text)) ->
         detect_mood text = mood)
  /\ (forall text mood,
         In mood MOOD_LABELS ->
         substring_of mood (lower text) ->
         (forall m, In m MOOD_LABELS -> substring_of m (lower text) ->
                    m = mood) ->
         detect_mood text = mood).
Proof.
  split; [reflexivity|]. split.
  - intros text mood pre post Hsplit Hin Hpre.
    apply detect_mood_of_direct. eapply direct_mention_first; eauto.
  - intros text mood Hmood Hin Huniq.
    apply detect_mood_of_direct.
    destruct (in_split _ _ Hmood) as [pre [post Hsplit]].
    eapply direct_mention_first; eauto.
    intros m Hm Hsub.
    assert (Hm' : In m MOOD_LABELS)
      by (rewrite Hsplit; apply in_or_app; now left).
    pose proof (Huniq m Hm' Hsub) as ->.
    (* the label would occur twice in a duplicate-free list *)
    assert (Hnd : NoDup MOOD_LABELS)
      by (unfold MOOD_LABELS;
          repeat (constructor; [simpl; intuition discriminate|]);
          constructor).
    rewrite Hsplit in Hnd. apply NoDup_remove_2 in Hnd.
    apply Hnd. apply in_or_app. now left.
Qed.


End MoodFacts.

(** ** The brace search and the tolerant reader *)

Module ParseFacts.
Import Re.

Lemma has_char_app c s t :
  has_char c (s ++ t)%string = has_char c s || has_char c t.
Proof.
  induction s as [|d s IH]; simpl; [reflexivity|].
  now rewrite IH, orb_assoc.
Qed.

Lemma after_first_open_some s r :
  after_first_open s = Some r ->
  exists pre, s = (pre ++ String "{" r)%string /\ has_char "{" pre = false.
Proof.
  revert r. induction s as [|c s IH]; intros r; simpl; [discriminate|].
  destruct (Ascii.eqb c "{") eqn:Hc.
  - intros [= ->]. apply Ascii.eqb_eq in Hc as ->. now exists EmptyString.
  - intros Hr. destruct (IH r Hr) as [pre [-> Hpre]].
    exists (String c pre). simpl. now rewrite Hc, Hpre.
Qed.

Lemma upto_last_close_some s p :
  upto_last_close s = Some p ->
  exists mid post,
    p = (mid ++ "}")%string /\ s = (mid ++ "}" ++ post)%string
    /\ has_char "}" post = false.
Proof.
  revert p. induction s as [|c s IH]; intros p; simpl; [discriminate|].
  destruct (upto_last_close s) as [q|] eqn:Hq.
  - intros [= <-]. destruct (IH q eq_refl) as [mid [post [-> [-> Hpost]]]].
    now exists (String c mid), post.
  - destruct (Ascii.eqb c "}") eqn:Hc; [|discriminate].
    intros [= <-]. apply Ascii.eqb_eq in Hc as ->.
    exists EmptyString, s. repeat split.
    clear IH. induction s as [|d s IHs]; [reflexivity|].
    simpl in Hq. destruct (upto_last_close s); [discriminate|].
    destruct (Ascii.eqb d "}") eqn:Hd; [discriminate|].
    simpl. rewrite Hd. now apply IHs.
Qed.

Lemma upto_last_close_none s :
  upto_last_close s = None -> has_char "}" s = false.
Proof.
  induction s as [|c s IH]; simpl; [reflexivity|].
  destruct (upto_last_close s); [discriminate|].
  destruct (Ascii.eqb c "}"); [discriminate|]. intros _. now apply IH.
Qed.

Lemma open_then_close pre mid post :
  exists r,
    after_first_open (pre ++ "{" ++ mid ++ "}" ++ post)%string = Some r
    /\ has_char "}" r = true.
Proof.
  induction pre as [|c pre IH]; simpl.
  - exists (mid ++ String "}" post)%string. split; [reflexivity|].
    rewrite has_char_app. simpl. now rewrite orb_true_r.
  - destruct (Ascii.eqb c "{").
    + eexists. split; [reflexivity|].
      rewrite !has_char_app. simpl. rewrite has_char_app. simpl.
      now rewrite !orb_true_r.
    + exact IH.
Qed.

(** The match, when there is one, runs from the first opening brace of the
    text to its last closing brace. *)
Lemma search_braces_some text cand :
  search_braces text = Some cand ->
  exists pre mid post,
    text = (pre ++ "{" ++ mid ++ "}" ++ post)%string
    /\ cand = ("{" ++ mid ++ "}")%string
    /\ has_char "{" pre = false /\ has_char "}" post = false.
Proof.
  unfold search_braces.
  destruct (after_first_open text) as [r|] eqn:Hr; [|discriminate].
  destruct (upto_last_close r) as [p|] eqn:Hp; [|discriminate].
  intros [= <-].
  destruct (after_first_open_some _ _ Hr) as [pre [-> Hpre]].
  destruct (upto_last_close_some _ _ Hp) as [mid [post [-> [-> Hpost]]]].
  now exists pre, mid, post.
Qed.

(** There is no match only when no closing brace follows an opening one. *)
Lemma search_braces_none text :
  search_braces text = None ->
  forall pre mid post, text <> (pre ++ "{" ++ mid ++ "}" ++ post)%string.
Proof.
  unfold search_braces. intros Hnone pre mid post ->.
  destruct (open_then_close pre mid post) as [r [Hr Hclose]].
  rewrite Hr in Hnone.
  destruct (upto_last_close r) eqn:Hp; [discriminate|].
  apply upto_last_close_none in Hp. congruence.
Qed.

Section Reader.

Variable json_loads : string -> result json.

Lemma parse_json_safe_direct text v :
  json_loads text = Ok v -> parse_json_safe json_loads text = Ok v.
Proof. unfold parse_json_safe. now intros ->. Qed.

Lemma parse_json_safe_extracted text e cand v :
  json_loads text = Raise e -> search_braces text = Some cand ->
  json_loads cand = Ok v -> parse_json_safe json_loads text = Ok v.
Proof. unfold parse_json_safe. now intros -> -> ->. Qed.

Lemma parse_json_safe_invalid text e cand e' :
  json_loads text = Raise e -> search_braces text = Some cand ->
  json_loads cand = Raise e' ->
  parse_json_safe json_loads text = Ok (error_object "invalid_json" text).
Proof. unfold parse_json_safe. now intros -> -> ->. Qed.

Lemma parse_json_safe_no_json text e :
  json_loads text = Raise e -> search_braces text = None ->
  parse_json_safe json_loads text = Ok (error_object "no_json" text).
Proof. unfold parse_json_safe. now intros -> ->. Qed.

Lemma parse_json_safe_returns text :
  exists v, parse_json_safe json_loads text = Ok v.
Proof.
  unfold parse_json_safe, try_except.
  destruct (json_loads text); [eauto|].
  destruct (search_braces text) as [cand|]; [|eauto].
  destruct (json_loads cand); eauto.
Qed.


End Reader.

(** C4.  [parse_json_safe] returns a value for every text and never raises:
    the direct parse when it succeeds; otherwise the parse of the span from
    the first opening brace to the last closing brace; otherwise an error
    object tagged [invalid_json] (a span was found but does not parse) or
    [no_json] (no span), which carries the raw text.  For the text of the
    specification's example, the embedded object is returned. *)
Theorem parse_json_safe_never_raises :
  forall json_loads : string -> result json,
    let parse := parse_json_safe json_loads in
    (forall text, exists v, parse text = Ok v)
    /\ (forall text v, json_loads text = Ok v -> parse text = Ok v)
    /\ (forall text e, json_loads text = Raise e ->
          (forall cand v, search_braces text = Some cand ->
                          json_loads cand = Ok v -> parse text = Ok v)
          /\ (forall cand e', search_braces text = Some cand ->
                              json_loads cand = Raise e' ->
                parse text = Ok (JObj [("error", JStr "invalid_json");
                                       ("raw", JStr text)]))
          /\ (search_braces text = None ->
                parse text = Ok (JObj [("error", JStr "no_json");
                                       ("raw", JStr text)])))
    /\ (forall text cand, search_braces text = Some cand ->
          exists pre mid post,
            text = (pre ++ "{" ++ mid ++ "}" ++ post)%string
            /\ cand = ("{" ++ mid ++ "}")%string
            /\ has_char "{" pre = false /\ has_char "}" post = false)
    /\ (forall text, search_braces text = None ->
          forall pre mid post,
            text <> (pre ++ "{" ++ mid ++ "}" ++ post)%string)
    /\ (forall e,
          json_loads example_answer = Raise e ->
          json_loads embedded_object = Ok (JObj [("a", JNum 1)]) ->
          parse example_answer = Ok (JObj [("a", JNum 1)])).
Proof.
  intros json_loads parse. subst parse. repeat split.
  - apply parse_json_safe_returns.
  - apply parse_json_safe_direct.
  - intros cand v. now apply parse_json_safe_extracted with (e := e).
  - intros cand e'. now apply parse_json_safe_invalid with (e := e).
  - now apply parse_json_safe_no_json with (e := e).
  - apply search_braces_some.
  - apply search_braces_none.
  - intros e Hfail Hok.
    now apply parse_json_safe_extracted with (e := e) (cand := embedded_object).
Qed.

End ParseFacts.

(** ** The acceptance rule *)

Module AcceptFacts.






Lemma accepts_final avg : accepts avg 2 = true.
Proof. unfold accepts. apply orb_true_r. Qed.



End AcceptFacts.

Module AcceptTheorem.
Import AcceptFacts.


End AcceptTheorem.

(** ** Random selection *)

Module RandomFacts.






Section Draws.

Variable rng : nat -> nat.





End Draws.

End RandomFacts.

Module ThemeFacts.
Import RandomFacts.





End ThemeFacts.

(** ** Call discipline of monadic computations *)

Module RunFacts.




Section Discipline.

Variable json_loads : string -> result json.
Variable api_key : option string.
Variable llm : nat -> call -> result string.
Variable rng : nat -> nat.










End Discipline.

End RunFacts.

(** ** The judge loop and the request as disciplined computations *)

Module LoopFacts.
Import RunFacts.

Lemma acceptance_final v b : acceptance v 2 = Ok b -> b = true.
Proof.
  unfold acceptance. destruct (Py.get v "scores" (JObj [])); [|discriminate].
  destruct (avg_score a); [|discriminate].
  intros [= <-]. apply AcceptFacts.accepts_final.
Qed.

Section Request.

Variable json_loads : string -> result json.
Variable api_key : option string.
Variable llm : nat -> call -> result string.
Variable rng : nat -> nat.













End Request.

End LoopFacts.

(** ** One round, step by step *)

Module RoundFacts.
Import LoopFacts.

Section Rounds.

Variable json_loads : string -> result json.
Variable api_key : option string.
Variable llm : nat -> call -> result string.

(** The loop body unfolded: which calls it makes and what it returns. *)
Lemma judge_round_run attempt story s :
  judge_round json_loads api_key llm attempt story s
  = let n := length (calls s) in
    let s1 := State (calls s ++ [judge_call story]) (draws s) in
    match model_reply api_key llm n (judge_call story) with
    | Raise e => (Raise e, s1)
    | Ok judge_raw =>
        match judge_verdict json_loads judge_raw with
        | Raise e => (Raise e, s1)
        | Ok v =>
            match acceptance v attempt with
            | Raise e => (Raise e, s1)
            | Ok true => (Ok (true, story, v), s1)
            | Ok false =>
                match revisions_of v with
                | Raise e => (Raise e, s1)
                | Ok revisions =>
                    let s2 :=
                      State (calls s ++ [judge_call story;
                                         rewrite_call revisions story])
                            (draws s) in
                    match model_reply api_key llm (S n)
                            (rewrite_call revisions story) with
                    | Raise e => (Raise e, s2)
                    | Ok rewritten => (Ok (false, rewritten, v), s2)
                    end
                end
            end
        end
    end.
Proof.
  unfold judge_round, bind, call_model, lift, ret, judge_call, rewrite_call.
  cbn [calls draws].
  destruct (model_reply _ _ _ _) as [judge_raw|e]; [|reflexivity].
  destruct (judge_verdict _ _) as [v|e]; [|reflexivity].
  destruct (acceptance v attempt) as [[|]|e]; try reflexivity.
  destruct (revisions_of v) as [revisions|e]; [|reflexivity].
  cbn [calls draws].
  rewrite length_app, Nat.add_1_r, <- app_assoc. cbn [app length].
  destruct (model_reply _ _ _ _); reflexivity.
Qed.


(** A round that does not break on attempt 2 does not exist. *)
Lemma judge_round_last_breaks story s x :
  fst (judge_round json_loads api_key llm 2 story s) = Ok x ->
  x = (true, story, snd x).
Proof.
  rewrite judge_round_run. cbn zeta.
  destruct (model_reply _ _ _ _) as [judge_raw|e]; [|discriminate].
  destruct (judge_verdict _ _) as [v|e]; [|discriminate].
  destruct (acceptance v 2) as [b|e] eqn:Haccept; [|discriminate].
  rewrite (acceptance_final _ _ Haccept). now intros [= <-].
Qed.



End Rounds.

End RoundFacts.

(** ** The derivation calls *)

Module RequestFacts.
Import RunFacts LoopFacts RoundFacts ParseFacts.


Section Derivation.

Variable json_loads : string -> result json.
Variable api_key : option string.
Variable llm : nat -> call -> result string.
Variable rng : nat -> nat.




End Derivation.

End RequestFacts.

(** ** The refinement loop: bounds, failures, fallback *)

Module LoopTheorems.
Import RunFacts LoopFacts RoundFacts ParseFacts RequestFacts.


Lemma judge_verdict_scalar json_loads judge_raw q :
  json_loads judge_raw = Ok (JNum q) ->
  judge_verdict json_loads judge_raw = Raise TypeError.
Proof.
  intros Hnum. unfold judge_verdict.
  now rewrite (parse_json_safe_direct _ _ _ Hnum).
Qed.





End LoopTheorems.

(** ** The derivation calls and the judge's scalar answers *)

Module DerivationTheorems.
Import RunFacts LoopFacts RoundFacts ParseFacts RequestFacts.




End DerivationTheorems.

(** * Worked instances *)

Module Instances.
Import Str StrFacts Mood Scenario JsonDecode.

(** A text that mentions one label, in capitals, next to keywords of
    another mood. *)
Lemma detect_mood_direct_mention_instance :
  In "sad" MOOD_LABELS
  /\ detect_mood "I feel SAD, not happy or energetic" = "sad".
Proof.
  split; [unfold MOOD_LABELS; simpl; tauto|].
  destruct MoodFacts.detect_mood_direct_mention as [_ [_ H]].
  apply (H "I feel SAD, not happy or energetic" "sad").
  - unfold MOOD_LABELS; simpl; tauto.
  - apply contains_spec. vm_compute. reflexivity.
  - intros m Hm Hsub. apply contains_spec in Hsub.
    unfold MOOD_LABELS in Hm. simpl in Hm.
    repeat (destruct Hm as [<- | Hm];
            [first [reflexivity | vm_compute in Hsub; discriminate]|]).
    destruct Hm.
Defined.


(** The reader on the specification's example, with the reference
    decoder. *)
Lemma parse_json_safe_instance :
  json_decode example_answer = Raise JSONDecodeError
  /\ json_decode embedded_object = Ok (JObj [("a", JNum 1)])
  /\ parse_json_safe json_decode example_answer = Ok (JObj [("a", JNum 1)]).
Proof.
  split; [vm_compute; reflexivity|]. split; [vm_compute; reflexivity|].
  destruct (ParseFacts.parse_json_safe_never_raises json_decode)
    as [_ [_ [_ [_ [_ H]]]]].
  apply (H JSONDecodeError); vm_compute; reflexivity.
Defined.







End Instances.

(** * Further properties of the code *)

(** ** Mood classifier: range, scores, ties, case *)

Module MoodMore.
Import Str StrFacts Mood MoodFacts.

Lemma bump_keys mood sc : map fst (bump mood sc) = map fst sc.
Proof.
  induction sc as [|[k v] sc IH]; [reflexivity|]. simpl.
  destruct (String.eqb k mood); simpl; [reflexivity | now rewrite IH].
Qed.

Lemma iter_bump_keys n mood sc :
  map fst (Nat.iter n (bump mood) sc) = map fst sc.
Proof.
  induction n as [|n IH]; [reflexivity|]. simpl. now rewrite bump_keys.
Qed.

(** The inner loop bumps the mood's entry once per keyword present. *)
Lemma score_keys_iter l mood keys : forall sc,
  score_keys l mood keys sc = Nat.iter (present l keys) (bump mood) sc.
Proof.
  unfold score_keys, present.
  induction keys as [|kw keys IH]; intros sc; [reflexivity|].
  cbn [fold_left filter]. destruct (contains kw l).
  - rewrite IH. cbn [length]. now rewrite Nat.iter_succ_r.
  - apply IH.
Qed.

Lemma iter_bump_entry n mood : forall pre v post,
  ~ In mood (map fst pre) ->
  Nat.iter n (bump mood) (pre ++ (mood, v) :: post)
  = pre ++ (mood, v + n) :: post.
Proof.
  induction n as [|n IH]; intros pre v post Hfresh.
  - simpl. now rewrite Nat.add_0_r.
  - rewrite Nat.iter_succ_r.
    assert (Hbump : bump mood (pre ++ (mood, v) :: post)
                    = pre ++ (mood, S v) :: post).
    { clear IH. induction pre as [|[k w] pre IHp]; simpl.
      - now rewrite String.eqb_refl.
      - destruct (String.eqb_spec k mood) as [-> | Hne].
        + exfalso. apply Hfresh. now left.
        + f_equal. apply IHp. intros Hin. apply Hfresh. now right. }
    rewrite Hbump, IH by exact Hfresh. do 2 f_equal. f_equal. lia.
Qed.

Lemma fold_score_keys l : forall todo done,
  NoDup (map fst (done ++ todo)) ->
  fold_left (fun sc mk => score_keys l (fst mk) (snd mk) sc) todo
    (map (fun mk => (fst mk, present l (snd mk))) done
     ++ map (fun mk => (fst mk, 0)) todo)
  = map (fun mk => (fst mk, present l (snd mk))) (done ++ todo).
Proof.
  induction todo as [|[mood keys] todo IH]; intros done Hnd.
  - simpl. now rewrite !app_nil_r.
  - cbn [fold_left map fst snd]. rewrite score_keys_iter.
    rewrite iter_bump_entry.
    + replace (done ++ (mood, keys) :: todo)
        with ((done ++ [(mood, keys)]) ++ todo)
        by now rewrite <- app_assoc.
      rewrite <- IH by (now rewrite <- app_assoc).
      f_equal. rewrite map_app, <- app_assoc. reflexivity.
    + rewrite map_map. cbn [fst].
      rewrite map_app in Hnd. cbn [map fst] in Hnd.
      apply NoDup_remove_2 in Hnd. intros Hin. apply Hnd.
      apply in_or_app. now left.
Qed.



Lemma max_item_in best items : In (max_item best items) (best :: items).
Proof.
  revert best. induction items as [|it items IH]; intros best.
  - now left.
  - cbn [max_item]. destruct (snd best <? snd it).
    + right. apply IH.
    + destruct (IH best) as [H | H]; [now left | right; now right].
Qed.

Lemma lower_ascii_idempotent c : lower_ascii (lower_ascii c) = lower_ascii c.
Proof. destruct c as [[] [] [] [] [] [] [] []]; reflexivity. Qed.

Lemma lower_idempotent s : lower (lower s) = lower s.
Proof.
  induction s as [|c s IH]; [reflexivity|]. simpl.
  now rewrite lower_ascii_idempotent, IH.
Qed.

Lemma keyword_scores_counts l :
  keyword_scores l
  = map (fun mk => (fst mk, present l (snd mk))) MOOD_KEYWORDS.
Proof.
  unfold keyword_scores.
  apply (fold_score_keys l MOOD_KEYWORDS []).
  cbn [app].
  assert (H : nodup string_dec (map fst MOOD_KEYWORDS)
              = map fst MOOD_KEYWORDS) by (vm_compute; reflexivity).
  rewrite <- H. apply NoDup_nodup.
Qed.

(** Each mood's score is the number of its keywords that occur in the
    lower-cased text: a keyword counts once however often it occurs, and
    the scores come in the order of [MOOD_KEYWORDS]. *)
Theorem keyword_scores_count_present text :
  keyword_scores (lower text)
  = map (fun mk => (fst mk, present (lower text) (snd mk))) MOOD_KEYWORDS.
Proof. apply keyword_scores_counts. Qed.

(** The classifier only ever answers with one of the six labels. *)
Theorem detect_mood_in_labels text : In (detect_mood text) MOOD_LABELS.
Proof.
  unfold detect_mood.
  destruct (direct_mention (lower text)) as [mood|] eqn:Hdirect.
  - unfold direct_mention in Hdirect. now apply find_some in Hdirect.
  - rewrite keyword_scores_counts.
    set (scores := map _ MOOD_KEYWORDS).
    assert (Hkeys : map fst scores = MOOD_LABELS)
      by (subst scores; rewrite map_map; reflexivity).
    destruct scores as [|first rest] eqn:Hscores; [now left|].
    destruct (snd (max_item first rest) =? 0); [now left|].
    rewrite <- Hkeys. apply in_map. apply max_item_in.
Qed.


(** The answer does not depend on the case of ASCII letters: lower-casing
    the text first changes nothing. *)
Theorem detect_mood_ignores_case text :
  detect_mood (lower text) = detect_mood text.
Proof. unfold detect_mood. now rewrite lower_idempotent. Qed.


End MoodMore.

(** ** Setting selection and the tolerant reader *)

Module ReaderMore.
Import Re ParseFacts.

Lemma select_setting_run rng s :
  exists setting,
    select_setting rng s = (Ok setting, State (calls s) (S (draws s)))
    /\ In setting SETTINGS.
Proof.
  unfold select_setting, random_choice, bind, randbelow, ret.
  cbn [SETTINGS]. eexists. split; [reflexivity|].
  apply nth_In. apply Nat.mod_upper_bound. discriminate.
Qed.

(** [select_setting] never fails: it uses one draw, makes no call and
    returns a label of [SETTINGS]; every label can be returned. *)
Theorem select_setting_in_catalog :
  (forall rng s, exists setting,
      select_setting rng s = (Ok setting, State (calls s) (S (draws s)))
      /\ In setting SETTINGS)
  /\ (forall setting, In setting SETTINGS ->
        exists rng, forall s,
          fst (select_setting rng s) = Ok setting).
Proof.
  split.
  - apply select_setting_run.
  - intros setting Hin.
    destruct (In_nth _ _ EmptyString Hin) as [n [Hn Hnth]].
    exists (fun _ => n). intros s.
    unfold select_setting, random_choice, bind, randbelow, ret.
    cbn [SETTINGS fst]. fold SETTINGS.
    now rewrite Nat.mod_small, Hnth by exact Hn.
Qed.

Lemma select_setting_instance :
  In "Library" SETTINGS
  /\ exists rng, forall s, fst (select_setting rng s) = Ok "Library".
Proof.
  assert (Hin : In "Library" SETTINGS)
    by (unfold SETTINGS; simpl; tauto).
  split; [exact Hin|].
  destruct select_setting_in_catalog as [_ H]. exact (H "Library" Hin).
Defined.

Lemma after_first_open_prefix pre rest :
  has_char "{" pre = false ->
  after_first_open (pre ++ String "{" rest)%string = Some rest.
Proof.
  induction pre as [|c pre IH]; simpl.
  - reflexivity.
  - destruct (Ascii.eqb c "{"); [discriminate|]. exact IH.
Qed.

Lemma upto_last_close_absent s :
  has_char "}" s = false -> upto_last_close s = None.
Proof.
  induction s as [|c s IH]; simpl; [reflexivity|].
  destruct (Ascii.eqb c "}"); [discriminate|].
  intros H. now rewrite IH.
Qed.

Lemma upto_last_close_suffix mid post :
  has_char "}" post = false ->
  upto_last_close (mid ++ String "}" post)%string
  = Some (mid ++ "}")%string.
Proof.
  intros Hpost. induction mid as [|c mid IH]; simpl.
  - now rewrite upto_last_close_absent.
  - now rewrite IH.
Qed.

Lemma search_braces_span pre mid post :
  has_char "{" pre = false -> has_char "}" post = false ->
  search_braces (pre ++ "{" ++ mid ++ "}" ++ post)%string
  = Some ("{" ++ mid ++ "}")%string.
Proof.
  intros Hpre Hpost. unfold search_braces.
  cbn [append]. rewrite after_first_open_prefix by exact Hpre.
  now rewrite upto_last_close_suffix.
Qed.

(** The span that is tried runs from the first opening brace to the last
    closing brace of the whole text, whatever lies between them: prose
    around one object is dropped, and nothing between two objects is. *)
Theorem search_braces_greedy pre mid post :
  has_char "{" pre = false -> has_char "}" post = false ->
  search_braces (pre ++ "{" ++ mid ++ "}" ++ post)%string
  = Some ("{" ++ mid ++ "}")%string.
Proof. apply search_braces_span. Qed.

Lemma search_braces_greedy_instance :
  search_braces "I say {1} and then {2}, fine?" = Some "{1} and then {2}".
Proof.
  apply (search_braces_greedy "I say " "1} and then {2" ", fine?");
    reflexivity.
Defined.

Section ReaderMoreFacts.

Variable json_loads : string -> result json.

Lemma derive_json_parse raw :
  derive_json json_loads raw = parse_json_safe json_loads raw.
Proof.
  unfold derive_json, parse_json_safe, try_except.
  destruct (json_loads raw); reflexivity.
Qed.

(** The [try] around [json.loads] in front of [parse_json_safe] adds
    nothing: each derivation slot is what [parse_json_safe] returns. *)
Theorem derive_json_is_parse_json_safe raw :
  derive_json json_loads raw = parse_json_safe json_loads raw.
Proof. apply derive_json_parse. Qed.

(** An object wrapped in prose that has no braces of its own is
    recovered. *)
Theorem parse_json_safe_unwraps pre mid post e v :
  has_char "{" pre = false -> has_char "}" post = false ->
  json_loads (pre ++ "{" ++ mid ++ "}" ++ post)%string = Raise e ->
  json_loads ("{" ++ mid ++ "}")%string = Ok v ->
  parse_json_safe json_loads (pre ++ "{" ++ mid ++ "}" ++ post)%string
  = Ok v.
Proof.
  intros Hpre Hpost Hfail Hok.
  apply parse_json_safe_extracted with (e := e)
                                       (cand := ("{" ++ mid ++ "}")%string).
  - exact Hfail.
  - now apply search_braces_span.
  - exact Hok.
Qed.

End ReaderMoreFacts.

Lemma parse_json_safe_unwraps_instance :
  parse_json_safe JsonDecode.json_decode "Sure! {} Enjoy." = Ok (JObj []).
Proof.
  apply (parse_json_safe_unwraps JsonDecode.json_decode
           "Sure! " EmptyString " Enjoy." JSONDecodeError (JObj []));
    vm_compute; reflexivity.
Defined.

End ReaderMore.

(** ** Verdicts: revisions and ill-typed answers *)

Module VerdictMore.
Import RoundFacts.




Section IllTyped.

Variable json_loads : string -> result json.
Variable api_key : option string.
Variable llm : nat -> call -> result string.



End IllTyped.

End VerdictMore.

(** ** The shape of a request's call log *)

Module ShapeFacts.
Import RunFacts LoopFacts RoundFacts ParseFacts RequestFacts.

Section Shapes.

Variable json_loads : string -> result json.
Variable api_key : option string.
Variable llm : nat -> call -> result string.
Variable rng : nat -> nat.




End Shapes.

End ShapeFacts.

(** ** What every request does *)

Module RequestMore.
Import RunFacts LoopFacts RoundFacts ParseFacts RequestFacts ShapeFacts.


Section Outcome.

Variable json_loads : string -> result json.
Variable api_key : option string.
Variable llm : nat -> call -> result string.
Variable rng : nat -> nat.



End Outcome.

End RequestMore.

Module RequestTheorems.
Import RunFacts LoopFacts RoundFacts ParseFacts RequestFacts ShapeFacts
  RequestMore.

Section Statements.

Variable json_loads : string -> result json.
Variable api_key : option string.
Variable llm : nat -> call -> result string.
Variable rng : nat -> nat.







End Statements.

End RequestTheorems.

(** ** The command line *)

Module CliFacts.
Import Cli.











Section MainFacts.

Variable json_loads : string -> result json.
Variable api_key : option string.
Variable llm : nat -> call -> result string.
Variable rng : nat -> nat.


End MainFacts.

End CliFacts.

(** ** Instances of the further properties *)

Module MoreInstances.
Import Scenario ScenarioMore JsonDecode.









End MoreInstances.

(** ** Cost bound and empty scores *)

Module BoundsMore.
Import RequestMore.


(** A verdict with a [scores] key whose value is empty, null, zero or
    false is kept as it is, without fallback, and counts as average 0: it
    is rejected on attempts 0 and 1 and accepted on attempt 2. *)
Theorem falsy_scores_count_as_zero :
  forall (json_loads : string -> result json) judge_raw members x attempt,
    parse_json_safe json_loads judge_raw = Ok (JObj members) ->
    Py.lookup "scores" members = Some x ->
    Py.truthy x = false ->
    judge_verdict json_loads judge_raw = Ok (JObj members)
    /\ acceptance (JObj members) attempt = Ok (attempt =? 2).
Proof.
  intros json_loads judge_raw members x attempt Hparse Hlook Hfalsy.
  split.
  - unfold judge_verdict. rewrite Hparse. cbn [Py.contains].
    now rewrite Hlook.
  - unfold acceptance, Py.get. rewrite Hlook. unfold avg_score.
    now rewrite Hfalsy.
Qed.

Lemma falsy_scores_instance :
  judge_verdict JsonDecode.json_decode
    ("{" ++ JsonDecode.quoted "scores" ++ ":null}")
  = Ok (JObj [("scores", JNull)])
  /\ acceptance (JObj [("scores", JNull)]) 1 = Ok false.
Proof.
  apply (falsy_scores_count_as_zero JsonDecode.json_decode
           ("{" ++ JsonDecode.quoted "scores" ++ ":null}")
           [("scores", JNull)] JNull 1);
    vm_compute; reflexivity.
Defined.


End BoundsMore.

(** ** What is judged and what is rewritten *)

Module FlowFacts.
Import RunFacts LoopFacts RoundFacts ParseFacts RequestFacts ShapeFacts
  RequestMore.

Section Flow.

Variable json_loads : string -> result json.
Variable api_key : option string.
Variable llm : nat -> call -> result string.
Variable rng : nat -> nat.



Lemma chained_kinds n story l :
  chained json_loads api_key llm n story l ->
  Forall (fun c => is_derivation_call c = false
                   /\ kind_of c <> KStory) l.
Proof.
  induction 1; repeat constructor; try discriminate; assumption.
Qed.





End Flow.

End FlowFacts.

Module FlowTheorems.
Import FlowFacts.


Section FlowStatements.

Variable json_loads : string -> result json.
Variable api_key : option string.
Variable llm : nat -> call -> result string.
Variable rng : nat -> nat.



End FlowStatements.



End FlowTheorems.
